(** * UnixSignalListener: a shallow embedding of [UnixSignalListener.hpp]

    The class blocks every signal in [init], records handlers per signal
    number in [setHandler] and dispatches them from the [sigtimedwait] loop
    of [listen].  The embedding keeps the fields and the methods of the
    class under their own names.

    What the operating system decides is an input of the model:
    - the return code of each [pthread_sigmask] call ([os_rc]);
    - the successive results of [sigtimedwait], a list of return value and
      [errno] pairs (the script); when the script is used up the thread is
      blocked inside [sigtimedwait] ([Blocked]);
    - the signal numbers the [sigset_t] functions accept ([signals]) and the
      signals the kernel never blocks ([unblockable]).

    A callable stored in a [std::function<void()>] is opaque: invoking it is
    recorded in the process' list of calls and it returns normally.  An
    empty [std::function] (one that compares equal to [nullptr]) is [None];
    invoking it throws [std::bad_function_call]. *)

From Stdlib Require Import ZArith String List.
From stdpp Require Import gmap strings.

Local Open Scope Z_scope.

(** ** Data *)

(** Targets of a [std::function<void()>]: the lambda [[] {}] the
    constructor installs, or a callable supplied by the user. *)
Inductive Callable : Type :=
  | EmptyLambda
  | UserFn (id : nat).

(** [using Handler = std::function<void()>]; [None] is the empty function. *)
Abbreviation Handler := (option Callable).

(** [using HandlerPair = std::pair<Handler, bool>]; the second component is
    the "terminate" value. *)
Abbreviation HandlerPair := (Handler * bool)%type.

Record timespec : Type := mkTimespec { tv_sec : Z; tv_nsec : Z }.

(** The data members of the class; [sigset_t] is a finite set of signal
    numbers, [std::map<int, HandlerPair>] a finite map. *)
Record UnixSignalListener : Type := mkListener {
  mHandlers : gmap Z HandlerPair;
  mTimeoutHandler : Handler;
  mSetHandlers : gset Z;
  mTimeoutSpec : timespec;
  mIsInited : bool
}.

(** The object together with what its methods act on outside of it: the
    signal mask of the calling thread (the blocked signals) and the calls
    made through [std::function] objects, oldest first. *)
Record Process : Type := mkProcess {
  self : UnixSignalListener;
  sigmask : gset Z;
  calls : list Callable
}.

Inductive exception : Type :=
  | runtime_error (what : string)
  | bad_function_call.

Inductive result (A : Type) : Type :=
  | Ok (a : A)
  | Throw (e : exception).
Arguments Ok {A} a.
Arguments Throw {A} e.

(** What one [sigtimedwait] call reports: its return value and the value of
    [errno] after it. *)
Record WaitResult : Type := mkWait { ret : Z; errno : Z }.

(** How far [listen] got on a script: it returned, or it is blocked in
    [sigtimedwait] waiting for the next result. *)
Inductive LoopEnd : Type :=
  | Returned
  | Blocked.

(** [errno] values of Linux' <errno.h>; the code compares against them in
    this order: EAGAIN, EINTR, EINVAL. *)
Definition EAGAIN : Z := 11.
Definition EINTR : Z := 4.
Definition EINVAL : Z := 22.

(** ** A state and exception monad for the methods *)

Definition M (A : Type) : Type := Process -> result A * Process.

Definition throw {A} (e : exception) : M A := fun p => (Throw e, p).

#[global] Instance M_ret : MRet M := fun A (a : A) p => (Ok a, p).

#[global] Instance M_bind : MBind M := fun A B (k : A -> M B) (m : M A) p =>
  match m p with
  | (Ok a, p') => k a p'
  | (Throw e, p') => (Throw e, p')
  end.

Definition this : M UnixSignalListener := fun p => (Ok (self p), p).

Definition update (f : UnixSignalListener -> UnixSignalListener) : M unit :=
  fun p => (Ok tt, mkProcess (f (self p)) (sigmask p) (calls p)).

(** [f()] for a [std::function] [f]. *)
Definition invoke (f : Handler) : M unit :=
  fun p =>
    match f with
    | Some c => (Ok tt, mkProcess (self p) (sigmask p) (calls p ++ [c]))
    | None => (Throw bad_function_call, p)
    end.

Definition set_mIsInited (b : bool) (l : UnixSignalListener) :=
  mkListener (mHandlers l) (mTimeoutHandler l) (mSetHandlers l)
             (mTimeoutSpec l) b.

Definition set_mSetHandlers (s : gset Z) (l : UnixSignalListener) :=
  mkListener (mHandlers l) (mTimeoutHandler l) s (mTimeoutSpec l)
             (mIsInited l).

Definition set_mHandlers (m : gmap Z HandlerPair) (l : UnixSignalListener) :=
  mkListener m (mTimeoutHandler l) (mSetHandlers l) (mTimeoutSpec l)
             (mIsInited l).

Definition set_timeout (t : Z) (h : Handler) (l : UnixSignalListener) :=
  mkListener (mHandlers l) h (mSetHandlers l)
             (mkTimespec t (tv_nsec (mTimeoutSpec l))) (mIsInited l).

Section Listener.

(** The signal numbers [sigaddset] accepts and [sigfillset] produces. *)
Variable signals : gset Z.
(** The signals a mask never holds (SIGKILL and SIGSTOP). *)
Variable unblockable : gset Z.

(** *** <signal.h> *)

Definition sigemptyset : gset Z := ∅.

Definition sigfillset : gset Z := signals.

(** Returns 0 and adds [signum], or returns -1 and leaves the set alone. *)
Definition sigaddset (set : gset Z) (signum : Z) : Z * gset Z :=
  if decide (signum ∈ signals) then (0, {[signum]} ∪ set) else (-1, set).

Definition sigisemptyset (set : gset Z) : Z :=
  if decide (set = ∅) then 1 else 0.

(** [pthread_sigmask(SIG_SETMASK, &set, nullptr)]: on success the blocked
    signals of the thread are those of [set], the unblockable ones apart;
    on failure the mask is as it was. *)
Definition pthread_sigmask_SETMASK (os_rc : Z) (set : gset Z) : M Z :=
  fun p =>
    if os_rc =? 0
    then (Ok 0, mkProcess (self p) (set ∖ unblockable) (calls p))
    else (Ok os_rc, p).

(** *** The class *)

(** The constructor; [mTimeoutSpec = { 600, 0 }] and [mIsInited = false]
    are the default member initialisers. *)
Definition constructor : UnixSignalListener :=
  mkListener ∅ (Some EmptyLambda) sigemptyset (mkTimespec 600 0) false.

(** A process that has just constructed its listener. *)
Definition construct (mask0 : gset Z) : Process :=
  mkProcess constructor mask0 [].

Definition init (os_rc : Z) : M unit :=
  let mask := sigfillset in
  rc ← pthread_sigmask_SETMASK os_rc mask;
  if negb (rc =? 0)
  then throw (runtime_error "Failed to block all signals")
  else update (set_mIsInited true).

Definition setHandler (signum : Z) (handler : Handler) (terminate : bool)
  : M unit :=
  l ← this;
  let (rc, set) := sigaddset (mSetHandlers l) signum in
  update (set_mSetHandlers set);;
  if negb (rc =? 0)
  then throw (runtime_error "Not valid signal")
  else update (fun l => set_mHandlers
                          (<[signum := (handler, terminate)]> (mHandlers l)) l).

Definition setTerminateSignal (signum : Z) : M unit :=
  setHandler signum None true.

Definition setSigIgnore (signum : Z) : M unit :=
  setHandler signum None false.

Definition setTimeoutHandler (timeout : Z) (handler : Handler) : M unit :=
  update (set_timeout timeout handler).

Definition sigtimedwaitErrorHandler (errno : Z) : M unit :=
  l ← this;
  if errno =? EAGAIN then invoke (mTimeoutHandler l)
  else if errno =? EINTR then (mret tt : M unit)
  else if errno =? EINVAL then throw (runtime_error "Timeout invalid")
  else mret tt.

(** [mHandlers.count(signum) != 1] is the [None] case; past it
    [mHandlers[signum]] reads the entry found. *)
Definition signalProcessing (signum : Z) : M Z :=
  l ← this;
  match (mHandlers l !! signum : option HandlerPair) with
  | None => throw (runtime_error "We should never be here! Check the code")
  | Some (first, second) =>
      (match first with
       | Some _ => invoke first
       | None => mret tt
       end);;
      if second then mret 1 else (mret 0 : M Z)
  end.

Definition checkRequirements : M unit :=
  l ← this;
  if negb (mIsInited l)
  then throw (runtime_error "UnixSignalListener was not initialized")
  else if (sigisemptyset (mSetHandlers l) =? 1)
          || bool_decide (mHandlers l = ∅)
  then throw (runtime_error "There are no signal handlers to listen")
  else mret tt.

(** The [while (true)] loop of [listen], one iteration per result of
    [sigtimedwait]. *)
Fixpoint listen_loop (script : list WaitResult) : M LoopEnd :=
  match script with
  | [] => mret Blocked
  | w :: script' =>
      if ret w <=? 0
      then sigtimedwaitErrorHandler (errno w);; listen_loop script'
      else
        r ← signalProcessing (ret w);
        if r =? 1 then mret Returned else listen_loop script'
  end.

Definition listen (os_rc : Z) (script : list WaitResult) : M LoopEnd :=
  checkRequirements;;
  l ← this;
  rc ← pthread_sigmask_SETMASK os_rc (mSetHandlers l);
  if negb (rc =? 0)
  then throw (runtime_error "Failed to set mask")
  else listen_loop script.

End Listener.

(** ** The public operations of the configuration phase *)

Inductive Op : Type :=
  | OpInit (os_rc : Z)
  | OpSetHandler (signum : Z) (handler : Handler) (terminate : bool)
  | OpSetTerminateSignal (signum : Z)
  | OpSetSigIgnore (signum : Z)
  | OpSetTimeoutHandler (timeout : Z) (handler : Handler).

Definition run_op (signals unblockable : gset Z) (o : Op) : M unit :=
  match o with
  | OpInit os_rc => init signals unblockable os_rc
  | OpSetHandler signum handler terminate =>
      setHandler signals signum handler terminate
  | OpSetTerminateSignal signum => setTerminateSignal signals signum
  | OpSetSigIgnore signum => setSigIgnore signals signum
  | OpSetTimeoutHandler timeout handler => setTimeoutHandler timeout handler
  end.

(** The states a caller can bring about before [listen]: a call that throws
    can be caught, so the state it leaves counts too. *)
Inductive reachable (signals unblockable : gset Z) : Process -> Prop :=
  | reachable_construct (mask0 : gset Z) :
      reachable signals unblockable (construct mask0)
  | reachable_op (o : Op) (p : Process) :
      reachable signals unblockable p ->
      reachable signals unblockable (run_op signals unblockable o p).2.

(** Runs a list of operations, whatever each one returns. *)
Fixpoint configure (signals unblockable : gset Z) (ops : list Op)
    (p : Process) : Process :=
  match ops with
  | [] => p
  | o :: ops' =>
      configure signals unblockable ops' (run_op signals unblockable o p).2
  end.

(** ** Linux with glibc, for concrete runs *)

Module Linux.

Definition SIGINT : Z := 2.
Definition SIGKILL : Z := 9.
Definition SIGUSR1 : Z := 10.
Definition SIGTERM : Z := 15.
Definition SIGSTOP : Z := 19.

(** 1 to 64 without the two signals glibc keeps for itself (32, 33). *)
Definition signals : gset Z :=
  list_to_set (seqZ 1 31 ++ seqZ 34 31).

Definition unblockable : gset Z := {[ SIGKILL; SIGSTOP ]}.

(** A signal arrived: [sigtimedwait] returns its number. *)
Definition delivered (signum : Z) : WaitResult := mkWait signum 0.

(** [sigtimedwait] failed with the given [errno]. *)
Definition failed (e : Z) : WaitResult := mkWait (-1) e.

(** [init(); setHandler(SIGTERM, f, true)] on a thread with nothing
    blocked, as [main] of example.cpp does. *)
Definition example : Process :=
  configure signals unblockable
    [OpInit 0; OpSetHandler SIGTERM (Some (UserFn 0)) true]
    (construct ∅).

(** The example inside [listen], after one time-out. *)
Definition waiting : Process :=
  (listen unblockable 0 [failed EAGAIN] example).2.

End Linux.

(** ** Properties stated by the specification, as predicates *)

(** The absent callback ("ignore, do nothing"). *)
Definition noop : Handler := None.

(** "Exactly the signals in SignalSet are unblocked, every other signal
    remains blocked": [before] and [after] are the blocked signals of the
    thread before and after the mask is changed. *)
Definition registered_unblocked (set after : gset Z) : Prop :=
  ∀ s, s ∈ set -> s ∉ after.

Definition others_stay_blocked (set before after : gset Z) : Prop :=
  ∀ s, s ∉ set -> s ∈ before -> s ∈ after.

Definition unblocks_exactly (set before after : gset Z) : Prop :=
  registered_unblocked set after ∧ others_stay_blocked set before after.

(** "The wait primitive returns signals of SignalSet only." *)
Definition waits_within (set : gset Z) (script : list WaitResult) : Prop :=
  Forall (fun w => 0 < ret w -> ret w ∈ set) script.

(** "SignalSet and HandlerRegistry are updated together." *)
Definition consistent (l : UnixSignalListener) : Prop :=
  ∀ s, s ∈ mSetHandlers l <-> is_Some (mHandlers l !! s).

(** [p] with [f] called, when [f] holds a callable. *)
Definition called (f : Handler) (p : Process) : Process :=
  mkProcess (self p) (sigmask p) (calls p ++ option_list f).

(** The calls a run of deliveries makes, in order of arrival: one per
    delivery whose entry holds a callable, up to and including the first
    delivery whose entry has terminate = true. *)
Fixpoint handled (m : gmap Z HandlerPair) (script : list WaitResult)
    : list Callable :=
  match script with
  | [] => []
  | w :: script' =>
      match m !! ret w with
      | Some (first, true) => option_list first
      | Some (first, false) => option_list first ++ handled m script'
      | None => []
      end
  end.

(** Whether a run of deliveries reaches an entry with terminate = true. *)
Fixpoint terminates (m : gmap Z HandlerPair) (script : list WaitResult)
    : bool :=
  match script with
  | [] => false
  | w :: script' =>
      match m !! ret w with
      | Some (_, true) => true
      | Some (_, false) => terminates m script'
      | None => false
      end
  end.

(** ** Auxiliary facts *)

Ltac run_M :=
  unfold mbind, M_bind, mret, M_ret, throw, this, update, invoke; simpl.

Section Facts.

Variable signals : gset Z.
Variable unblockable : gset Z.

(** [listen] is its three guards followed by the loop. *)
Lemma listen_unfold (os_rc : Z) (script : list WaitResult) (p : Process) :
  listen unblockable os_rc script p =
    if negb (mIsInited (self p))
    then (Throw (runtime_error "UnixSignalListener was not initialized"), p)
    else if (sigisemptyset (mSetHandlers (self p)) =? 1)
            || bool_decide (mHandlers (self p) = ∅)
    then (Throw (runtime_error "There are no signal handlers to listen"), p)
    else if os_rc =? 0
    then listen_loop script
           (mkProcess (self p) (mSetHandlers (self p) ∖ unblockable) (calls p))
    else (Throw (runtime_error "Failed to set mask"), p).
Proof.
  unfold listen, checkRequirements, pthread_sigmask_SETMASK. run_M.
  destruct (mIsInited (self p)); simpl; [|reflexivity].
  destruct (_ || _); simpl; [reflexivity|].
  destruct (os_rc =? 0) eqn:E; simpl; rewrite ?E; reflexivity.
Qed.

Lemma sigtimedwaitErrorHandler_frame (e : Z) (p : Process) :
  self (sigtimedwaitErrorHandler e p).2 = self p
  ∧ sigmask (sigtimedwaitErrorHandler e p).2 = sigmask p.
Proof.
  unfold sigtimedwaitErrorHandler. run_M.
  destruct (e =? EAGAIN).
  - destruct (mTimeoutHandler (self p)); auto.
  - destruct (e =? EINTR); [auto|]. destruct (e =? EINVAL); auto.
Qed.

Lemma signalProcessing_frame (signum : Z) (p : Process) :
  self (signalProcessing signum p).2 = self p
  ∧ sigmask (signalProcessing signum p).2 = sigmask p.
Proof.
  unfold signalProcessing. run_M.
  destruct (mHandlers (self p) !! signum) as [[[c|] [|]]|]; auto.
Qed.

(** The loop reads the object and never touches the mask. *)
Lemma listen_loop_frame (script : list WaitResult) (p : Process) :
  self (listen_loop script p).2 = self p
  ∧ sigmask (listen_loop script p).2 = sigmask p.
Proof.
  revert p. induction script as [|w script IH]; intros p; [auto|].
  simpl. destruct (ret w <=? 0).
  - unfold mbind, M_bind.
    pose proof (sigtimedwaitErrorHandler_frame (errno w) p) as [Hs Hm].
    destruct (sigtimedwaitErrorHandler (errno w) p) as [[[]|e] p1];
      simpl in *; [|auto].
    destruct (IH p1) as [-> ->]. auto.
  - unfold mbind, M_bind.
    pose proof (signalProcessing_frame (ret w) p) as [Hs Hm].
    destruct (signalProcessing (ret w) p) as [[r|e] p1]; simpl in *; [|auto].
    destruct (r =? 1); [auto|].
    destruct (IH p1) as [-> ->]. auto.
Qed.

(** A loop that is blocked after [pre] goes on with what comes next. *)
Lemma listen_loop_app (pre rest : list WaitResult) (p p1 : Process) :
  listen_loop pre p = (Ok Blocked, p1) ->
  listen_loop (pre ++ rest) p = listen_loop rest p1.
Proof.
  revert p. induction pre as [|w pre IH]; intros p H; simpl in *.
  - unfold mret, M_ret in H. congruence.
  - destruct (ret w <=? 0); unfold mbind, M_bind in *.
    + destruct (sigtimedwaitErrorHandler (errno w) p) as [[[]|e] p0];
        [auto|discriminate].
    + destruct (signalProcessing (ret w) p) as [[r|e] p0]; [|discriminate].
      destruct (r =? 1); [discriminate|auto].
Qed.

(** The same for [listen]: the guards passed once and for all. *)
Lemma listen_app (os_rc : Z) (pre rest : list WaitResult) (p p1 : Process) :
  listen unblockable os_rc pre p = (Ok Blocked, p1) ->
  listen unblockable os_rc (pre ++ rest) p = listen_loop rest p1
  ∧ self p1 = self p.
Proof.
  rewrite !listen_unfold.
  destruct (negb _); [discriminate|].
  destruct (_ || _); [discriminate|].
  destruct (os_rc =? 0); [|discriminate].
  intros H. split; [by apply listen_loop_app|].
  pose proof (listen_loop_frame pre
    (mkProcess (self p) (mSetHandlers (self p) ∖ unblockable) (calls p)))
    as [Hs _].
  rewrite H in Hs. exact Hs.
Qed.

End Facts.

(** ** What one loop iteration does *)

(** A registered signal: the callable of its entry is called if there is
    one, and the terminate value decides the return value. *)
Lemma signalProcessing_found (signum : Z) (first : Handler) (second : bool)
    (p : Process) :
  mHandlers (self p) !! signum = Some (first, second) ->
  signalProcessing signum p = (Ok (if second then 1 else 0), called first p).
Proof.
  intros H. unfold signalProcessing, called. run_M. rewrite H.
  destruct p as [l m c]; destruct first, second; simpl;
    rewrite ?app_nil_r; reflexivity.
Qed.

Lemma signalProcessing_missing (signum : Z) (p : Process) :
  mHandlers (self p) !! signum = None ->
  signalProcessing signum p =
    (Throw (runtime_error "We should never be here! Check the code"), p).
Proof. intros H. unfold signalProcessing. run_M. by rewrite H. Qed.

(** A time-out with a callable timeout handler: it is called and the loop
    goes on. *)
Lemma timeout_calls_handler (w : WaitResult) (rest : list WaitResult)
    (c : Callable) (p : Process) :
  ret w <= 0 -> errno w = EAGAIN -> mTimeoutHandler (self p) = Some c ->
  listen_loop (w :: rest) p = listen_loop rest (called (Some c) p).
Proof.
  intros Hr He Hc. simpl. apply Z.leb_le in Hr. rewrite Hr, He.
  unfold sigtimedwaitErrorHandler. run_M. by rewrite Hc.
Qed.

(** A time-out with an empty timeout handler: calling it throws. *)
Lemma timeout_empty_handler (w : WaitResult) (rest : list WaitResult)
    (p : Process) :
  ret w <= 0 -> errno w = EAGAIN -> mTimeoutHandler (self p) = None ->
  listen_loop (w :: rest) p = (Throw bad_function_call, p).
Proof.
  intros Hr He Hc. simpl. apply Z.leb_le in Hr. rewrite Hr, He.
  unfold sigtimedwaitErrorHandler. run_M. by rewrite Hc.
Qed.

Lemma interrupt_skips (w : WaitResult) (rest : list WaitResult) (p : Process) :
  ret w <= 0 -> errno w = EINTR ->
  listen_loop (w :: rest) p = listen_loop rest p.
Proof.
  intros Hr He. simpl. apply Z.leb_le in Hr. rewrite Hr, He. reflexivity.
Qed.

Lemma invalid_timeout_throws (w : WaitResult) (rest : list WaitResult)
    (p : Process) :
  ret w <= 0 -> errno w = EINVAL ->
  listen_loop (w :: rest) p = (Throw (runtime_error "Timeout invalid"), p).
Proof.
  intros Hr He. simpl. apply Z.leb_le in Hr. rewrite Hr, He. reflexivity.
Qed.

Lemma delivery_dispatches (w : WaitResult) (rest : list WaitResult)
    (first : Handler) (second : bool) (p : Process) :
  0 < ret w -> mHandlers (self p) !! ret w = Some (first, second) ->
  listen_loop (w :: rest) p =
    if second then (Ok Returned, called first p)
    else listen_loop rest (called first p).
Proof.
  intros Hr H. simpl. apply Z.leb_gt in Hr. rewrite Hr.
  unfold mbind, M_bind. rewrite (signalProcessing_found _ _ _ _ H).
  by destruct second.
Qed.

(** ** The registration calls *)

Lemma setHandler_valid (signals : gset Z) (signum : Z) (handler : Handler)
    (terminate : bool) (p : Process) :
  signum ∈ signals ->
  setHandler signals signum handler terminate p =
    (Ok tt,
     mkProcess
       (mkListener (<[signum := (handler, terminate)]> (mHandlers (self p)))
                   (mTimeoutHandler (self p))
                   ({[signum]} ∪ mSetHandlers (self p))
                   (mTimeoutSpec (self p)) (mIsInited (self p)))
       (sigmask p) (calls p)).
Proof.
  intros H. unfold setHandler, sigaddset. run_M.
  destruct (decide (signum ∈ signals)); [reflexivity|contradiction].
Qed.

Lemma setHandler_invalid (signals : gset Z) (signum : Z) (handler : Handler)
    (terminate : bool) (p : Process) :
  signum ∉ signals ->
  setHandler signals signum handler terminate p =
    (Throw (runtime_error "Not valid signal"), p).
Proof.
  intros H. unfold setHandler, sigaddset. run_M.
  destruct (decide (signum ∈ signals)); [contradiction|].
  by destruct p as [[] ? ?].
Qed.

Lemma setHandler_consistent (signals : gset Z) (signum : Z) (handler : Handler)
    (terminate : bool) (p : Process) :
  consistent (self p) ->
  consistent (self (setHandler signals signum handler terminate p).2).
Proof.
  intros Hc. destruct (decide (signum ∈ signals)) as [Hv|Hv].
  - rewrite setHandler_valid by done. intros s. simpl.
    rewrite elem_of_union, elem_of_singleton, lookup_insert_is_Some, (Hc s).
    destruct (decide (signum = s)); intuition congruence.
  - by rewrite setHandler_invalid.
Qed.

Lemma run_op_consistent (signals unblockable : gset Z) (o : Op) (p : Process) :
  consistent (self p) -> consistent (self (run_op signals unblockable o p).2).
Proof.
  intros Hc. destruct o; simpl;
    try (by apply setHandler_consistent); [|exact Hc].
  unfold init, pthread_sigmask_SETMASK. run_M.
  destruct (os_rc =? 0) eqn:E; simpl; rewrite ?E; simpl; exact Hc.
Qed.

Lemma reachable_consistent (signals unblockable : gset Z) (p : Process) :
  reachable signals unblockable p -> consistent (self p).
Proof.
  induction 1 as [mask0|o p _ IH].
  - intros s. simpl. unfold sigemptyset. rewrite lookup_empty.
    split; [set_solver|by intros []].
  - by apply run_op_consistent.
Qed.

(** With the two structures in agreement the loop never finds a delivered
    signal without an entry. *)
Lemma listen_loop_no_internal_error (script : list WaitResult) (p : Process) :
  consistent (self p) ->
  waits_within (mSetHandlers (self p)) script ->
  (listen_loop script p).1 ≠
    Throw (runtime_error "We should never be here! Check the code").
Proof.
  intros Hc. revert p Hc.
  induction script as [|w script IH]; intros p Hc Hw; [done|].
  apply Forall_cons in Hw as [Hw Hws]. simpl.
  destruct (ret w <=? 0) eqn:Hr; unfold mbind, M_bind.
  - pose proof (sigtimedwaitErrorHandler_frame (errno w) p) as [Hs _].
    destruct (sigtimedwaitErrorHandler (errno w) p) as [[[]|e] p1] eqn:He;
      simpl in Hs.
    + apply IH; by rewrite Hs.
    + revert He. unfold sigtimedwaitErrorHandler. run_M.
      destruct (errno w =? EAGAIN);
        [destruct (mTimeoutHandler (self p)); intros [=]; by subst|].
      destruct (errno w =? EINTR); [done|].
      destruct (errno w =? EINVAL); intros [=]; by subst.
  - apply Z.leb_gt in Hr.
    destruct (proj1 (Hc (ret w)) (Hw Hr)) as [[first second] Hl].
    rewrite (signalProcessing_found _ _ _ _ Hl).
    destruct second; simpl; [done|]. apply IH; [exact Hc|exact Hws].
Qed.

(** ** The signal mask set by [listen] *)

(** C1, as the specification states it, fails in both halves: after
    [init(); setHandler(SIGTERM, f, true)] the mask [listen] installs keeps
    SIGTERM, the registered signal, blocked, and unblocks SIGINT, which is
    not registered and was blocked since [init]. *)
Lemma listen_mask_not_unblocks_exactly :
  let set := mSetHandlers (self Linux.example) in
  let before := sigmask Linux.example in
  let after := sigmask (listen Linux.unblockable 0 [] Linux.example).2 in
  ¬ registered_unblocked set after
  ∧ ¬ others_stay_blocked set before after
  ∧ ¬ unblocks_exactly set before after.
Proof.
  intros set before after.
  assert (H1 : ¬ registered_unblocked set after).
  { intros H. apply (H Linux.SIGTERM); compute_done. }
  assert (H2 : ¬ others_stay_blocked set before after).
  { intros H.
    assert (Hint : Linux.SIGINT ∉ after) by compute_done.
    apply Hint, H; compute_done. }
  split; [exact H1|]. split; [exact H2|]. by intros [H _].
Qed.

(** C1 (amended): when [listen] gets past its checks and [pthread_sigmask]
    succeeds, the blocked signals of the thread are, at every point of the
    loop (after any number of [sigtimedwait] results), exactly the signals
    of [mSetHandlers] that can be blocked at all; every signal outside
    [mSetHandlers] is unblocked. *)
Theorem listen_blocks_exactly_handler_set (unblockable : gset Z)
    (script : list WaitResult) (p : Process) (s : Z) :
  (checkRequirements p).1 = Ok tt ->
  s ∈ sigmask (listen unblockable 0 script p).2
  <-> s ∈ mSetHandlers (self p) ∧ s ∉ unblockable.
Proof.
  intros Hreq. rewrite listen_unfold.
  revert Hreq. unfold checkRequirements. run_M.
  destruct (negb _); [discriminate|].
  destruct (_ || _); [discriminate|]. intros _. simpl.
  pose proof (listen_loop_frame script
    (mkProcess (self p) (mSetHandlers (self p) ∖ unblockable) (calls p)))
    as [_ Hm].
  rewrite Hm. simpl. apply elem_of_difference.
Qed.

Lemma listen_blocks_exactly_handler_set_witness :
  Linux.SIGTERM ∈
    sigmask (listen Linux.unblockable 0
               [Linux.failed EAGAIN; Linux.failed EINTR] Linux.example).2
  <-> Linux.SIGTERM ∈ mSetHandlers (self Linux.example)
      ∧ Linux.SIGTERM ∉ Linux.unblockable.
Proof.
  apply (listen_blocks_exactly_handler_set Linux.unblockable
           [Linux.failed EAGAIN; Linux.failed EINTR] Linux.example
           Linux.SIGTERM).
  vm_compute. reflexivity.
Defined.

(** ** Registry and signal set agree *)

(** C2: in every state reachable by construction, [init], the three
    registration calls and [setTimeoutHandler], the signals of
    [mSetHandlers] are those with an entry in [mHandlers]; so when
    [sigtimedwait] returns signals of [mSetHandlers] only, [listen] never
    throws the "We should never be here" error. *)
Theorem reachable_registry_covers_signal_set (signals unblockable : gset Z)
    (p : Process) (os_rc : Z) (script : list WaitResult) :
  reachable signals unblockable p ->
  waits_within (mSetHandlers (self p)) script ->
  consistent (self p)
  ∧ (listen unblockable os_rc script p).1 ≠
      Throw (runtime_error "We should never be here! Check the code").
Proof.
  intros Hr Hw. pose proof (reachable_consistent _ _ _ Hr) as Hc.
  split; [exact Hc|].
  rewrite listen_unfold.
  destruct (negb _); [done|]. destruct (_ || _); [done|].
  destruct (os_rc =? 0); [|done].
  by apply listen_loop_no_internal_error.
Qed.

Lemma reachable_registry_covers_signal_set_witness :
  consistent (self Linux.example)
  ∧ (listen Linux.unblockable 0
       [Linux.failed EAGAIN; Linux.delivered Linux.SIGTERM] Linux.example).1 ≠
      Throw (runtime_error "We should never be here! Check the code").
Proof.
  apply (reachable_registry_covers_signal_set Linux.signals Linux.unblockable
           Linux.example 0
           [Linux.failed EAGAIN; Linux.delivered Linux.SIGTERM]).
  - unfold Linux.example. cbn [configure].
    apply reachable_op, reachable_op, reachable_construct.
  - apply Forall_cons. split; [vm_compute; discriminate|].
    apply Forall_cons. split; [intros _; compute_done|exact (List.Forall_nil _)].
Defined.

(** ** Terminating handlers *)

(** C3: when [listen] is waiting and a signal whose entry has
    terminate = true is delivered, the callable of the entry is called once
    if there is one, and [listen] returns; what [sigtimedwait] would have
    reported afterwards ([rest]) plays no part. *)
Theorem terminating_signal_returns (unblockable : gset Z) (os_rc : Z)
    (pre rest : list WaitResult) (w : WaitResult) (first : Handler)
    (p p1 : Process) :
  listen unblockable os_rc pre p = (Ok Blocked, p1) ->
  0 < ret w ->
  mHandlers (self p) !! ret w = Some (first, true) ->
  listen unblockable os_rc (pre ++ w :: rest) p
  = (Ok Returned, mkProcess (self p1) (sigmask p1)
                            (calls p1 ++ option_list first)).
Proof.
  intros Hpre Hr Hl.
  destruct (listen_app unblockable os_rc pre (w :: rest) p p1 Hpre)
    as [-> Hs].
  rewrite <- Hs in Hl.
  by rewrite (delivery_dispatches w rest first true p1 Hr Hl).
Qed.

Lemma terminating_signal_returns_witness :
  listen Linux.unblockable 0
    ([Linux.failed EAGAIN] ++
     Linux.delivered Linux.SIGTERM :: [Linux.delivered Linux.SIGUSR1])
    Linux.example
  = (Ok Returned,
     mkProcess (self Linux.waiting) (sigmask Linux.waiting)
               (calls Linux.waiting ++ option_list (Some (UserFn 0)))).
Proof.
  apply (terminating_signal_returns Linux.unblockable 0
           [Linux.failed EAGAIN] [Linux.delivered Linux.SIGUSR1]
           (Linux.delivered Linux.SIGTERM) (Some (UserFn 0)) Linux.example
           Linux.waiting).
  - vm_compute. reflexivity.
  - vm_compute. reflexivity.
  - vm_compute. reflexivity.
Defined.

(** ** Registering a signal twice *)

(** C4: after [setHandler(s, A, tA)] and then [setHandler(s, B, tB)] for a
    signal [s] the platform accepts, both calls have succeeded, the state is
    the one the second call alone produces, the entry of [s] is [(B, tB)],
    and a delivery of [s] calls [B] only (if [B] holds a callable) and
    nothing else. *)
Theorem setHandler_twice_last_wins (signals : gset Z) (s : Z)
    (A B : Handler) (tA tB : bool) (p : Process) :
  s ∈ signals ->
  let twice := (setHandler signals s A tA;; setHandler signals s B tB) p in
  twice = setHandler signals s B tB p
  ∧ twice.1 = Ok tt
  ∧ mHandlers (self twice.2) !! s = Some (B, tB)
  ∧ signalProcessing s twice.2
    = (Ok (if tB then 1 else 0),
       mkProcess (self twice.2) (sigmask twice.2)
                 (calls p ++ option_list B)).
Proof.
  intros Hv twice.
  assert (Htwice : twice = setHandler signals s B tB p).
  { subst twice. unfold mbind, M_bind.
    rewrite (setHandler_valid signals s A tA p Hv).
    rewrite !setHandler_valid by exact Hv. simpl.
    rewrite insert_insert_eq.
    rewrite (assoc_L (∪) {[s]}), (idemp_L (∪) {[s]}).
    reflexivity. }
  split; [exact Htwice|]. rewrite Htwice, setHandler_valid by exact Hv.
  simpl. split; [reflexivity|].
  split; [apply lookup_insert_eq|].
  rewrite (signalProcessing_found s B tB); [reflexivity|].
  apply lookup_insert_eq.
Qed.

Lemma setHandler_twice_last_wins_witness :
  let twice :=
    (setHandler Linux.signals Linux.SIGUSR1 (Some (UserFn 1)) true;;
     setHandler Linux.signals Linux.SIGUSR1 (Some (UserFn 2)) false)
      Linux.example in
  twice = setHandler Linux.signals Linux.SIGUSR1 (Some (UserFn 2)) false
            Linux.example
  ∧ twice.1 = Ok tt
  ∧ mHandlers (self twice.2) !! Linux.SIGUSR1 = Some (Some (UserFn 2), false)
  ∧ signalProcessing Linux.SIGUSR1 twice.2
    = (Ok (if false then 1 else 0),
       mkProcess (self twice.2) (sigmask twice.2)
                 (calls Linux.example ++ option_list (Some (UserFn 2)))).
Proof.
  apply (setHandler_twice_last_wins Linux.signals Linux.SIGUSR1
           (Some (UserFn 1)) (Some (UserFn 2)) true false Linux.example).
  compute_done.
Defined.

(** ** Time-outs *)

(** C5 fails on [setTimeoutHandler(5, nullptr)]: with the empty handler
    stored, the first time-out of [sigtimedwait] makes [listen] throw
    [std::bad_function_call], where [signalProcessing] checks its handler
    against [nullptr] before the call. *)
Theorem timeout_with_empty_handler_throws :
  (listen Linux.unblockable 0 [Linux.failed EAGAIN]
     (setTimeoutHandler 5 None Linux.example).2).1
  = Throw bad_function_call.
Proof. vm_compute. reflexivity. Qed.

(** ** The checks of [listen] *)

(** C6: [listen] checks its requirements before it touches the signal
    mask. Without a successful [init] it throws "UnixSignalListener was not
    initialized" and the process, its mask included, is as before. Once
    initialised, with no handler registered it throws "There are no signal
    handlers to listen", again with nothing changed. *)
Theorem listen_checks_requirements_first (unblockable : gset Z) (os_rc : Z)
    (script : list WaitResult) (p : Process) :
  (mIsInited (self p) = false ->
   listen unblockable os_rc script p
   = (Throw (runtime_error "UnixSignalListener was not initialized"), p))
  ∧ (mIsInited (self p) = true ->
     mHandlers (self p) = ∅ ∨ mSetHandlers (self p) = ∅ ->
     listen unblockable os_rc script p
     = (Throw (runtime_error "There are no signal handlers to listen"), p)).
Proof.
  rewrite listen_unfold. split.
  - by intros ->.
  - intros -> He. simpl.
    replace (_ || _) with true; [reflexivity|].
    symmetry. apply orb_true_iff. destruct He as [He|He].
    + right. by apply bool_decide_eq_true.
    + left. unfold sigisemptyset. by rewrite decide_True.
Qed.

Lemma listen_checks_requirements_first_witness :
  listen Linux.unblockable 0 [Linux.delivered Linux.SIGTERM] (construct ∅)
  = (Throw (runtime_error "UnixSignalListener was not initialized"),
     construct ∅)
  ∧ listen Linux.unblockable 0 [Linux.delivered Linux.SIGTERM]
      (init Linux.signals Linux.unblockable 0 (construct ∅)).2
    = (Throw (runtime_error "There are no signal handlers to listen"),
       (init Linux.signals Linux.unblockable 0 (construct ∅)).2).
Proof.
  split.
  - apply (listen_checks_requirements_first Linux.unblockable 0
             [Linux.delivered Linux.SIGTERM] (construct ∅)).
    reflexivity.
  - apply (listen_checks_requirements_first Linux.unblockable 0
             [Linux.delivered Linux.SIGTERM]
             (init Linux.signals Linux.unblockable 0 (construct ∅)).2).
    + reflexivity.
    + left. reflexivity.
Defined.

(** ** The two convenience calls *)

(** C7: [setTerminateSignal(s)] is [setHandler(s, noop, true)] and
    [setSigIgnore(s)] is [setHandler(s, noop, false)], as functions of the
    process state; and after [setTerminateSignal(s)] for a signal the
    platform accepts, a delivery of [s] makes the loop return with the
    process exactly as it was: no callable has been called. *)
Theorem convenience_calls_are_setHandler (signals : gset Z) (s : Z)
    (p : Process) :
  setTerminateSignal signals s p = setHandler signals s noop true p
  ∧ setSigIgnore signals s p = setHandler signals s noop false p
  ∧ (s ∈ signals -> 0 < s ->
     ∀ w rest, ret w = s ->
       listen_loop (w :: rest) (setTerminateSignal signals s p).2
       = (Ok Returned, (setTerminateSignal signals s p).2)).
Proof.
  split; [reflexivity|]. split; [reflexivity|].
  intros Hv Hs w rest <-. unfold setTerminateSignal.
  rewrite (setHandler_valid signals (ret w) None true p Hv). simpl snd.
  rewrite (delivery_dispatches w rest None true); [|exact Hs|apply lookup_insert_eq].
  unfold called. simpl. by rewrite app_nil_r.
Qed.

Lemma convenience_calls_are_setHandler_witness :
  setTerminateSignal Linux.signals Linux.SIGINT Linux.example
  = setHandler Linux.signals Linux.SIGINT noop true Linux.example
  ∧ setSigIgnore Linux.signals Linux.SIGINT Linux.example
    = setHandler Linux.signals Linux.SIGINT noop false Linux.example
  ∧ listen_loop (Linux.delivered Linux.SIGINT :: [Linux.failed EAGAIN])
      (setTerminateSignal Linux.signals Linux.SIGINT Linux.example).2
    = (Ok Returned,
       (setTerminateSignal Linux.signals Linux.SIGINT Linux.example).2).
Proof.
  destruct (convenience_calls_are_setHandler Linux.signals Linux.SIGINT
              Linux.example) as (H1 & H2 & H3).
  split; [exact H1|]. split; [exact H2|].
  apply H3.
  - compute_done.
  - reflexivity.
  - reflexivity.
Defined.

(** ** Interrupted and failed waits *)

(** C8: when [listen] is waiting and [sigtimedwait] fails with EINTR (a
    signal outside the set interrupted the wait), [listen] is waiting again
    with the process unchanged (no callable called, nothing thrown, no
    return), and it goes on with the later results as if the interruption
    had not occurred. *)
Theorem interrupted_wait_is_absorbed (unblockable : gset Z) (os_rc : Z)
    (pre rest : list WaitResult) (w : WaitResult) (p p1 : Process) :
  listen unblockable os_rc pre p = (Ok Blocked, p1) ->
  ret w <= 0 -> errno w = EINTR ->
  listen unblockable os_rc (pre ++ [w]) p = (Ok Blocked, p1)
  ∧ listen unblockable os_rc (pre ++ w :: rest) p
    = listen unblockable os_rc (pre ++ rest) p.
Proof.
  intros Hpre Hr He.
  destruct (listen_app unblockable os_rc pre [w] p p1 Hpre) as [-> _].
  destruct (listen_app unblockable os_rc pre (w :: rest) p p1 Hpre) as [-> _].
  destruct (listen_app unblockable os_rc pre rest p p1 Hpre) as [-> _].
  rewrite !interrupt_skips by assumption. done.
Qed.

Lemma interrupted_wait_is_absorbed_witness :
  listen Linux.unblockable 0 ([Linux.failed EAGAIN] ++ [Linux.failed EINTR])
    Linux.example
  = (Ok Blocked, Linux.waiting)
  ∧ listen Linux.unblockable 0
      ([Linux.failed EAGAIN] ++
       Linux.failed EINTR :: [Linux.delivered Linux.SIGTERM]) Linux.example
    = listen Linux.unblockable 0
        ([Linux.failed EAGAIN] ++ [Linux.delivered Linux.SIGTERM])
        Linux.example.
Proof.
  apply (interrupted_wait_is_absorbed Linux.unblockable 0
           [Linux.failed EAGAIN] [Linux.delivered Linux.SIGTERM]
           (Linux.failed EINTR) Linux.example Linux.waiting).
  - vm_compute. reflexivity.
  - vm_compute. discriminate.
  - reflexivity.
Defined.

(** C9: when [listen] is waiting and [sigtimedwait] fails with EINVAL,
    [listen] throws "Timeout invalid" to its caller at once, whatever
    [sigtimedwait] would have reported afterwards. *)
Theorem invalid_timeout_aborts_listen (unblockable : gset Z) (os_rc : Z)
    (pre rest : list WaitResult) (w : WaitResult) (p p1 : Process) :
  listen unblockable os_rc pre p = (Ok Blocked, p1) ->
  ret w <= 0 -> errno w = EINVAL ->
  listen unblockable os_rc (pre ++ w :: rest) p
  = (Throw (runtime_error "Timeout invalid"), p1).
Proof.
  intros Hpre Hr He.
  destruct (listen_app unblockable os_rc pre (w :: rest) p p1 Hpre) as [-> _].
  by apply invalid_timeout_throws.
Qed.

Lemma invalid_timeout_aborts_listen_witness :
  listen Linux.unblockable 0
    ([Linux.failed EAGAIN] ++
     Linux.failed EINVAL :: [Linux.delivered Linux.SIGTERM]) Linux.example
  = (Throw (runtime_error "Timeout invalid"), Linux.waiting).
Proof.
  apply (invalid_timeout_aborts_listen Linux.unblockable 0
           [Linux.failed EAGAIN] [Linux.delivered Linux.SIGTERM]
           (Linux.failed EINVAL) Linux.example Linux.waiting).
  - vm_compute. reflexivity.
  - vm_compute. discriminate.
  - reflexivity.
Defined.

(** ** A registration that fails *)

(** C10: [setHandler] with a signal number the platform rejects throws
    "Not valid signal" and leaves the whole process state, [mSetHandlers]
    and [mHandlers] included, as it was. *)
Theorem setHandler_invalid_signal_changes_nothing (signals : gset Z)
    (s : Z) (callback : Handler) (terminate : bool) (p : Process) :
  s ∉ signals ->
  setHandler signals s callback terminate p
  = (Throw (runtime_error "Not valid signal"), p).
Proof. apply setHandler_invalid. Qed.

Lemma setHandler_invalid_signal_changes_nothing_witness :
  setHandler Linux.signals 99 (Some (UserFn 1)) true Linux.example
  = (Throw (runtime_error "Not valid signal"), Linux.example).
Proof.
  apply (setHandler_invalid_signal_changes_nothing Linux.signals 99
           (Some (UserFn 1)) true Linux.example).
  compute_done.
Defined.

(** ** Further properties: [init] *)

(** X1: when [pthread_sigmask] fails, [init] throws "Failed to block all
    signals" and changes nothing; a listener that was not initialised stays
    so, and [listen] on it throws "UnixSignalListener was not
    initialized". *)
Theorem init_failure_changes_nothing (signals unblockable : gset Z)
    (os_rc : Z) (p : Process) :
  os_rc ≠ 0 ->
  init signals unblockable os_rc p
  = (Throw (runtime_error "Failed to block all signals"), p)
  ∧ (mIsInited (self p) = false ->
     ∀ rc script,
       listen unblockable rc script (init signals unblockable os_rc p).2
       = (Throw (runtime_error "UnixSignalListener was not initialized"), p)).
Proof.
  intros H. apply Z.eqb_neq in H.
  assert (Hi : init signals unblockable os_rc p
               = (Throw (runtime_error "Failed to block all signals"), p)).
  { unfold init, pthread_sigmask_SETMASK. run_M. rewrite H. simpl.
    by rewrite H. }
  split; [exact Hi|]. intros Hn rc script. rewrite Hi. simpl.
  rewrite listen_unfold, Hn. reflexivity.
Qed.

Lemma init_failure_changes_nothing_witness :
  init Linux.signals Linux.unblockable (-1) (construct ∅)
  = (Throw (runtime_error "Failed to block all signals"), construct ∅)
  ∧ (mIsInited (self (construct ∅)) = false ->
     ∀ rc script,
       listen Linux.unblockable rc script
         (init Linux.signals Linux.unblockable (-1) (construct ∅)).2
       = (Throw (runtime_error "UnixSignalListener was not initialized"),
          construct ∅)).
Proof.
  apply (init_failure_changes_nothing Linux.signals Linux.unblockable (-1)
           (construct ∅)).
  discriminate.
Defined.

(** X2: when [pthread_sigmask] succeeds, [init] returns normally, the
    blocked signals are exactly the platform's signals that can be blocked,
    [mIsInited] is true, the handlers, the timeout settings and the calls
    are as before, and a second successful [init] changes nothing more. *)
Theorem init_blocks_every_signal (signals unblockable : gset Z) (p : Process) :
  let p' := (init signals unblockable 0 p).2 in
  (init signals unblockable 0 p).1 = Ok tt
  ∧ (∀ s, s ∈ sigmask p' <-> s ∈ signals ∧ s ∉ unblockable)
  ∧ mIsInited (self p') = true
  ∧ mHandlers (self p') = mHandlers (self p)
  ∧ mSetHandlers (self p') = mSetHandlers (self p)
  ∧ mTimeoutHandler (self p') = mTimeoutHandler (self p)
  ∧ mTimeoutSpec (self p') = mTimeoutSpec (self p)
  ∧ calls p' = calls p
  ∧ init signals unblockable 0 p' = (Ok tt, p').
Proof.
  unfold init, pthread_sigmask_SETMASK, sigfillset. run_M.
  split; [reflexivity|]. split; [intros s; apply elem_of_difference|].
  repeat split.
Qed.

(** ** Further properties: the configuration phase *)

(** X3: in every reachable state the registered signals are signals of the
    platform: [mSetHandlers] and the keys of [mHandlers] hold no number
    [sigaddset] rejects. *)
Theorem reachable_handlers_are_signals (signals unblockable : gset Z)
    (p : Process) (s : Z) :
  reachable signals unblockable p ->
  s ∈ mSetHandlers (self p) ∨ is_Some (mHandlers (self p) !! s) ->
  s ∈ signals.
Proof.
  intros Hr Hs.
  assert (Hin : s ∈ mSetHandlers (self p)).
  { destruct Hs as [Hs|Hs]; [exact Hs|].
    by apply (reachable_consistent _ _ _ Hr). }
  clear Hs. induction Hr as [mask0|o p Hr IH];
    [by apply not_elem_of_empty in Hin|].
  assert (Hset : ∀ signum h t,
    s ∈ mSetHandlers (self (setHandler signals signum h t p).2) ->
    s ∈ signals).
  { intros signum h t. destruct (decide (signum ∈ signals)) as [Hv|Hv].
    - rewrite setHandler_valid by done. simpl.
      intros [->%elem_of_singleton|Hs]%elem_of_union; [exact Hv|by apply IH].
    - rewrite setHandler_invalid by done. exact IH. }
  destruct o; simpl in Hin; try (by eapply Hset).
  - revert Hin. unfold init, pthread_sigmask_SETMASK. run_M.
    destruct (os_rc =? 0) eqn:E; simpl; rewrite ?E; exact IH.
  - by apply IH.
Qed.

Lemma reachable_handlers_are_signals_witness :
  Linux.SIGTERM ∈ Linux.signals.
Proof.
  apply (reachable_handlers_are_signals Linux.signals Linux.unblockable
           Linux.example Linux.SIGTERM).
  - unfold Linux.example. cbn [configure].
    apply reachable_op, reachable_op, reachable_construct.
  - left. compute_done.
Defined.

(** No configuration call changes the list of calls. *)
Lemma run_op_calls (signals unblockable : gset Z) (o : Op) (p : Process) :
  calls (run_op signals unblockable o p).2 = calls p.
Proof.
  assert (Hset : ∀ signum h t,
    calls (setHandler signals signum h t p).2 = calls p).
  { intros signum h t. destruct (decide (signum ∈ signals)) as [Hv|Hv].
    - by rewrite setHandler_valid.
    - by rewrite setHandler_invalid. }
  destruct o; simpl; try apply Hset; [|reflexivity].
  unfold init, pthread_sigmask_SETMASK. run_M.
  destruct (os_rc =? 0) eqn:E; simpl; rewrite ?E; reflexivity.
Qed.

(** X4: construction, [init], the registration calls and
    [setTimeoutHandler] never call a handler: in every reachable state no
    call has been made. *)
Theorem reachable_no_calls (signals unblockable : gset Z) (p : Process) :
  reachable signals unblockable p -> calls p = [].
Proof.
  induction 1 as [mask0|o p _ IH]; [reflexivity|].
  by rewrite run_op_calls.
Qed.

Lemma reachable_no_calls_witness : calls Linux.example = [].
Proof.
  apply (reachable_no_calls Linux.signals Linux.unblockable Linux.example).
  unfold Linux.example. cbn [configure].
  apply reachable_op, reachable_op, reachable_construct.
Defined.

(** A configuration call leaves mask and flag alone, unless it is an [init]
    that succeeds. *)
Lemma run_op_mask_flag (signals unblockable : gset Z) (o : Op) (p : Process) :
  let p' := (run_op signals unblockable o p).2 in
  (sigmask p' = sigmask p ∧ mIsInited (self p') = mIsInited (self p))
  ∨ (sigmask p' = signals ∖ unblockable ∧ mIsInited (self p') = true).
Proof.
  assert (Hset : ∀ signum h t,
    sigmask (setHandler signals signum h t p).2 = sigmask p
    ∧ mIsInited (self (setHandler signals signum h t p).2)
      = mIsInited (self p)).
  { intros signum h t. destruct (decide (signum ∈ signals)) as [Hv|Hv].
    - by rewrite setHandler_valid.
    - by rewrite setHandler_invalid. }
  destruct o; simpl; try (left; apply Hset); [|by left].
  unfold init, pthread_sigmask_SETMASK, sigfillset. run_M.
  destruct (os_rc =? 0) eqn:E; simpl; rewrite ?E; simpl; [by right|by left].
Qed.

(** X5: in every reachable state with [mIsInited] true, the thread blocks
    exactly the platform's signals that can be blocked: no call after a
    successful [init] changes the mask, and no call resets the flag. *)
Theorem reachable_inited_blocks_all (signals unblockable : gset Z)
    (p : Process) :
  reachable signals unblockable p ->
  mIsInited (self p) = true ->
  sigmask p = signals ∖ unblockable
  ∧ ∀ o, mIsInited (self (run_op signals unblockable o p).2) = true.
Proof.
  intros Hr Hi. split.
  - induction Hr as [mask0|o p Hr IH]; [discriminate|].
    destruct (run_op_mask_flag signals unblockable o p) as [[Hm Hf]|[Hm _]].
    + rewrite Hm. apply IH. by rewrite <- Hf.
    + exact Hm.
  - intros o.
    destruct (run_op_mask_flag signals unblockable o p) as [[_ Hf]|[_ Hf]].
    + by rewrite Hf.
    + exact Hf.
Qed.

Lemma reachable_inited_blocks_all_witness :
  sigmask Linux.example = Linux.signals ∖ Linux.unblockable
  ∧ ∀ o, mIsInited
           (self (run_op Linux.signals Linux.unblockable o Linux.example).2)
         = true.
Proof.
  apply (reachable_inited_blocks_all Linux.signals Linux.unblockable
           Linux.example).
  - unfold Linux.example. cbn [configure].
    apply reachable_op, reachable_op, reachable_construct.
  - vm_compute. reflexivity.
Defined.

(** X6: in every reachable state the timeout is a whole number of seconds:
    [tv_nsec] is 0, as the member initialiser left it, since
    [setTimeoutHandler] assigns [tv_sec] only. *)
Theorem reachable_timeout_whole_seconds (signals unblockable : gset Z)
    (p : Process) :
  reachable signals unblockable p -> tv_nsec (mTimeoutSpec (self p)) = 0.
Proof.
  induction 1 as [mask0|o p _ IH]; [reflexivity|].
  assert (Hset : ∀ signum h t,
    mTimeoutSpec (self (setHandler signals signum h t p).2)
    = mTimeoutSpec (self p)).
  { intros signum h t. destruct (decide (signum ∈ signals)) as [Hv|Hv].
    - by rewrite setHandler_valid.
    - by rewrite setHandler_invalid. }
  destruct o; simpl; try (unfold setTerminateSignal, setSigIgnore;
                          by rewrite Hset); [|exact IH].
  unfold init, pthread_sigmask_SETMASK. run_M.
  destruct (os_rc =? 0) eqn:E; simpl; rewrite ?E; exact IH.
Qed.

Lemma reachable_timeout_whole_seconds_witness :
  tv_nsec (mTimeoutSpec
             (self (setTimeoutHandler 5 (Some (UserFn 3)) Linux.example).2))
  = 0.
Proof.
  apply (reachable_timeout_whole_seconds Linux.signals Linux.unblockable
           (run_op Linux.signals Linux.unblockable
              (OpSetTimeoutHandler 5 (Some (UserFn 3))) Linux.example).2).
  unfold Linux.example. cbn [configure].
  apply reachable_op, reachable_op, reachable_op, reachable_construct.
Defined.

(** ** Further properties: the checks of [listen] *)



(** X8: when the checks pass and [pthread_sigmask] fails, [listen] throws
    "Failed to set mask" without waiting: the process is unchanged and no
    result of [sigtimedwait] is looked at. *)
Theorem listen_mask_failure_throws (unblockable : gset Z) (os_rc : Z)
    (script : list WaitResult) (p : Process) :
  (checkRequirements p).1 = Ok tt ->
  os_rc ≠ 0 ->
  listen unblockable os_rc script p
  = (Throw (runtime_error "Failed to set mask"), p).
Proof.
  intros Hreq Hrc. rewrite listen_unfold.
  revert Hreq. unfold checkRequirements. run_M.
  destruct (negb _); [discriminate|].
  destruct (_ || _); [discriminate|]. intros _.
  apply Z.eqb_neq in Hrc. by rewrite Hrc.
Qed.

Lemma listen_mask_failure_throws_witness :
  listen Linux.unblockable 22 [Linux.delivered Linux.SIGTERM] Linux.example
  = (Throw (runtime_error "Failed to set mask"), Linux.example).
Proof.
  apply (listen_mask_failure_throws Linux.unblockable 22
           [Linux.delivered Linux.SIGTERM] Linux.example).
  - vm_compute. reflexivity.
  - discriminate.
Defined.

(** ** Further properties: the loop *)

(** X9: when [listen] is waiting and a signal whose entry has
    terminate = false is delivered, the callable of the entry is called once
    if there is one, [listen] does not return and it goes on with the next
    results of [sigtimedwait]. *)
Theorem plain_signal_continues (unblockable : gset Z) (os_rc : Z)
    (pre rest : list WaitResult) (w : WaitResult) (first : Handler)
    (p p1 : Process) :
  listen unblockable os_rc pre p = (Ok Blocked, p1) ->
  0 < ret w ->
  mHandlers (self p) !! ret w = Some (first, false) ->
  listen unblockable os_rc (pre ++ [w]) p = (Ok Blocked, called first p1)
  ∧ listen unblockable os_rc (pre ++ w :: rest) p
    = listen_loop rest (called first p1).
Proof.
  intros Hpre Hr Hl.
  destruct (listen_app unblockable os_rc pre [w] p p1 Hpre) as [-> Hs].
  destruct (listen_app unblockable os_rc pre (w :: rest) p p1 Hpre)
    as [-> _].
  rewrite <- Hs in Hl.
  by rewrite !(delivery_dispatches w _ first false p1 Hr Hl).
Qed.

Lemma plain_signal_continues_witness :
  let p := (setHandler Linux.signals Linux.SIGUSR1 (Some (UserFn 7)) false
              Linux.example).2 in
  let p1 := (listen Linux.unblockable 0 [] p).2 in
  listen Linux.unblockable 0 ([] ++ [Linux.delivered Linux.SIGUSR1]) p
  = (Ok Blocked, called (Some (UserFn 7)) p1)
  ∧ listen Linux.unblockable 0
      ([] ++ Linux.delivered Linux.SIGUSR1 :: [Linux.delivered Linux.SIGTERM])
      p
    = listen_loop [Linux.delivered Linux.SIGTERM]
        (called (Some (UserFn 7)) p1).
Proof.
  intros p p1.
  apply (plain_signal_continues Linux.unblockable 0 []
           [Linux.delivered Linux.SIGTERM] (Linux.delivered Linux.SIGUSR1)
           (Some (UserFn 7)) p p1).
  - vm_compute. reflexivity.
  - vm_compute. reflexivity.
  - vm_compute. reflexivity.
Defined.

(** X10: a failed wait whose [errno] is none of EAGAIN, EINTR and EINVAL is
    ignored like an interruption: [listen] is waiting again with the process
    unchanged and handles the later results as if the failure had not
    occurred. *)
Theorem other_errno_is_ignored (unblockable : gset Z) (os_rc : Z)
    (pre rest : list WaitResult) (w : WaitResult) (p p1 : Process) :
  listen unblockable os_rc pre p = (Ok Blocked, p1) ->
  ret w <= 0 ->
  errno w ≠ EAGAIN -> errno w ≠ EINTR -> errno w ≠ EINVAL ->
  listen unblockable os_rc (pre ++ [w]) p = (Ok Blocked, p1)
  ∧ listen unblockable os_rc (pre ++ w :: rest) p
    = listen unblockable os_rc (pre ++ rest) p.
Proof.
  intros Hpre Hr H1 H2 H3.
  destruct (listen_app unblockable os_rc pre [w] p p1 Hpre) as [-> _].
  destruct (listen_app unblockable os_rc pre (w :: rest) p p1 Hpre) as [-> _].
  destruct (listen_app unblockable os_rc pre rest p p1 Hpre) as [-> _].
  assert (Hskip : ∀ l, listen_loop (w :: l) p1 = listen_loop l p1).
  { intros l. simpl. apply Z.leb_le in Hr. rewrite Hr.
    unfold sigtimedwaitErrorHandler. run_M.
    apply Z.eqb_neq in H1, H2, H3. by rewrite H1, H2, H3. }
  by rewrite !Hskip.
Qed.

Lemma other_errno_is_ignored_witness :
  listen Linux.unblockable 0 ([Linux.failed EAGAIN] ++ [Linux.failed 5])
    Linux.example
  = (Ok Blocked, Linux.waiting)
  ∧ listen Linux.unblockable 0
      ([Linux.failed EAGAIN] ++
       Linux.failed 5 :: [Linux.delivered Linux.SIGTERM]) Linux.example
    = listen Linux.unblockable 0
        ([Linux.failed EAGAIN] ++ [Linux.delivered Linux.SIGTERM])
        Linux.example.
Proof.
  apply (other_errno_is_ignored Linux.unblockable 0
           [Linux.failed EAGAIN] [Linux.delivered Linux.SIGTERM]
           (Linux.failed 5) Linux.example Linux.waiting).
  - vm_compute. reflexivity.
  - vm_compute. discriminate.
  - discriminate.
  - discriminate.
  - discriminate.
Defined.

(** Successive time-outs with a callable timeout handler. *)
Lemma listen_loop_timeouts (ts : list WaitResult) (c : Callable) (q : Process) :
  mTimeoutHandler (self q) = Some c ->
  Forall (fun w => ret w <= 0 ∧ errno w = EAGAIN) ts ->
  listen_loop ts q
  = (Ok Blocked,
     mkProcess (self q) (sigmask q) (calls q ++ replicate (length ts) c)).
Proof.
  intros Hc Hts. revert q Hc.
  induction Hts as [|w ts [Hr He] _ IH]; intros q Hc.
  - destruct q as [l m cs]. simpl. by rewrite app_nil_r.
  - rewrite (timeout_calls_handler w ts c q Hr He Hc).
    rewrite IH by exact Hc. simpl. by rewrite <- app_assoc.
Qed.

(** X11: when [listen] is waiting with a callable timeout handler, [n]
    time-outs in a row call the handler [n] times and nothing else, and
    [listen] is still waiting. *)
Theorem timeouts_call_handler_each_time (unblockable : gset Z) (os_rc : Z)
    (pre ts : list WaitResult) (c : Callable) (p p1 : Process) :
  listen unblockable os_rc pre p = (Ok Blocked, p1) ->
  mTimeoutHandler (self p) = Some c ->
  Forall (fun w => ret w <= 0 ∧ errno w = EAGAIN) ts ->
  listen unblockable os_rc (pre ++ ts) p
  = (Ok Blocked,
     mkProcess (self p1) (sigmask p1) (calls p1 ++ replicate (length ts) c)).
Proof.
  intros Hpre Hc Hts.
  destruct (listen_app unblockable os_rc pre ts p p1 Hpre) as [-> Hs].
  apply listen_loop_timeouts; [by rewrite Hs|exact Hts].
Qed.

Lemma timeouts_call_handler_each_time_witness :
  listen Linux.unblockable 0
    ([Linux.failed EAGAIN] ++ [Linux.failed EAGAIN; mkWait 0 EAGAIN])
    Linux.example
  = (Ok Blocked,
     mkProcess (self Linux.waiting) (sigmask Linux.waiting)
       (calls Linux.waiting
        ++ replicate (length [Linux.failed EAGAIN; mkWait 0 EAGAIN])
             EmptyLambda)).
Proof.
  apply (timeouts_call_handler_each_time Linux.unblockable 0
           [Linux.failed EAGAIN] [Linux.failed EAGAIN; mkWait 0 EAGAIN]
           EmptyLambda Linux.example Linux.waiting).
  - vm_compute. reflexivity.
  - vm_compute. reflexivity.
  - apply Forall_cons. split; [split; [vm_compute; discriminate|reflexivity]|].
    apply Forall_cons. split; [split; [vm_compute; discriminate|reflexivity]|].
    exact (List.Forall_nil _).
Defined.

(** X12: when [listen] is waiting and [sigtimedwait] returns a signal
    number that has no entry in [mHandlers], [listen] throws "We should
    never be here! Check the code" at once and no handler is called. *)
Theorem unregistered_delivery_throws (unblockable : gset Z) (os_rc : Z)
    (pre rest : list WaitResult) (w : WaitResult) (p p1 : Process) :
  listen unblockable os_rc pre p = (Ok Blocked, p1) ->
  0 < ret w ->
  mHandlers (self p) !! ret w = None ->
  listen unblockable os_rc (pre ++ w :: rest) p
  = (Throw (runtime_error "We should never be here! Check the code"), p1).
Proof.
  intros Hpre Hr Hl.
  destruct (listen_app unblockable os_rc pre (w :: rest) p p1 Hpre)
    as [-> Hs].
  rewrite <- Hs in Hl. simpl. apply Z.leb_gt in Hr. rewrite Hr.
  unfold mbind, M_bind. by rewrite (signalProcessing_missing _ _ Hl).
Qed.

Lemma unregistered_delivery_throws_witness :
  listen Linux.unblockable 0
    ([Linux.failed EAGAIN] ++
     Linux.delivered Linux.SIGINT :: [Linux.delivered Linux.SIGTERM])
    Linux.example
  = (Throw (runtime_error "We should never be here! Check the code"),
     Linux.waiting).
Proof.
  apply (unregistered_delivery_throws Linux.unblockable 0
           [Linux.failed EAGAIN] [Linux.delivered Linux.SIGTERM]
           (Linux.delivered Linux.SIGINT) Linux.example Linux.waiting).
  - vm_compute. reflexivity.
  - vm_compute. reflexivity.
  - vm_compute. reflexivity.
Defined.

(** What one iteration can add to the calls: nothing, or one call of the
    stored handler it is about. *)
Lemma sigtimedwaitErrorHandler_calls (e : Z) (q : Process) :
  calls (sigtimedwaitErrorHandler e q).2 = calls q
  ∨ ∃ c, mTimeoutHandler (self q) = Some c
         ∧ calls (sigtimedwaitErrorHandler e q).2 = calls q ++ [c].
Proof.
  unfold sigtimedwaitErrorHandler. run_M.
  destruct (e =? EAGAIN).
  - destruct (mTimeoutHandler (self q)) as [c|]; [right; by exists c|by left].
  - destruct (e =? EINTR); [by left|]. destruct (e =? EINVAL); by left.
Qed.

Lemma signalProcessing_calls (signum : Z) (q : Process) :
  calls (signalProcessing signum q).2 = calls q
  ∨ ∃ c t, mHandlers (self q) !! signum = Some (Some c, t)
           ∧ calls (signalProcessing signum q).2 = calls q ++ [c].
Proof.
  unfold signalProcessing. run_M.
  destruct (mHandlers (self q) !! signum) as [[[c|] t]|] eqn:Hl;
    [right; exists c, t; by destruct t|left; by destruct t|by left].
Qed.

(** The callables the listener holds. *)
Lemma listen_loop_calls (script : list WaitResult) (q : Process) :
  ∃ extra,
    calls (listen_loop script q).2 = calls q ++ extra
    ∧ Forall (fun c => mTimeoutHandler (self q) = Some c
                       ∨ ∃ s t, mHandlers (self q) !! s = Some (Some c, t))
             extra.
Proof.
  revert q. induction script as [|w script IH]; intros q.
  - exists []. simpl. by rewrite app_nil_r.
  - simpl. destruct (ret w <=? 0); unfold mbind, M_bind.
    + pose proof (sigtimedwaitErrorHandler_calls (errno w) q) as Hc.
      pose proof (sigtimedwaitErrorHandler_frame (errno w) q) as [Hs _].
      destruct (sigtimedwaitErrorHandler (errno w) q) as [[[]|e] q1];
        simpl in *.
      * destruct (IH q1) as (extra & He & Hf). rewrite Hs in Hf.
        destruct Hc as [Hc|(c & Hc1 & Hc2)].
        -- exists extra. by rewrite He, Hc.
        -- exists (c :: extra). rewrite He, Hc2, <- app_assoc.
           split; [done|]. apply List.Forall_cons; [by left|exact Hf].
      * destruct Hc as [Hc|(c & Hc1 & Hc2)].
        -- exists []. by rewrite Hc, app_nil_r.
        -- exists [c]. split; [done|].
           apply List.Forall_cons; [by left|exact (List.Forall_nil _)].
    + pose proof (signalProcessing_calls (ret w) q) as Hc.
      pose proof (signalProcessing_frame (ret w) q) as [Hs _].
      destruct (signalProcessing (ret w) q) as [[r|e] q1]; simpl in *.
      * assert (Hone : ∃ one, calls q1 = calls q ++ one
          ∧ Forall (fun c => mTimeoutHandler (self q) = Some c
                     ∨ ∃ s t, mHandlers (self q) !! s = Some (Some c, t)) one).
        { destruct Hc as [Hc|(c & t & Hc1 & Hc2)].
          - exists []. by rewrite Hc, app_nil_r.
          - exists [c]. split; [done|].
            apply List.Forall_cons; [right; by exists (ret w), t|].
            exact (List.Forall_nil _). }
        destruct Hone as (one & Ho & Hfo).
        destruct (r =? 1); simpl; [by exists one|].
        destruct (IH q1) as (extra & He & Hf). rewrite Hs in Hf.
        exists (one ++ extra). rewrite He, Ho, <- app_assoc.
        split; [done|]. by apply Forall_app.
      * destruct Hc as [Hc|(c & t & Hc1 & Hc2)].
        -- exists []. by rewrite Hc, app_nil_r.
        -- exists [c]. split; [done|].
           apply List.Forall_cons; [right; by exists (ret w), t|].
           exact (List.Forall_nil _).
Qed.

(** X13: whatever [sigtimedwait] reports and however [listen] ends, the
    calls it makes come after those made before, and each of them is a call
    of the timeout handler or of the handler of some entry of [mHandlers]:
    [listen] calls nothing that was not registered. *)
Theorem listen_calls_registered_only (unblockable : gset Z) (os_rc : Z)
    (script : list WaitResult) (p : Process) :
  ∃ extra,
    calls (listen unblockable os_rc script p).2 = calls p ++ extra
    ∧ Forall (fun c => mTimeoutHandler (self p) = Some c
                       ∨ ∃ s t, mHandlers (self p) !! s = Some (Some c, t))
             extra.
Proof.
  rewrite listen_unfold.
  assert (Hnone : ∃ extra, calls p = calls p ++ extra
    ∧ Forall (fun c => mTimeoutHandler (self p) = Some c
               ∨ ∃ s t, mHandlers (self p) !! s = Some (Some c, t)) extra).
  { exists []. by rewrite app_nil_r. }
  destruct (negb _); [exact Hnone|]. destruct (_ || _); [exact Hnone|].
  destruct (os_rc =? 0); [|exact Hnone].
  apply (listen_loop_calls script
    (mkProcess (self p) (mSetHandlers (self p) ∖ unblockable) (calls p))).
Qed.

(** A loop that returns has met a terminating entry. *)
Lemma listen_loop_returned (script : list WaitResult) (q q' : Process) :
  listen_loop script q = (Ok Returned, q') ->
  ∃ w first,
    w ∈ script ∧ 0 < ret w
    ∧ mHandlers (self q) !! ret w = Some (first, true).
Proof.
  revert q. induction script as [|w script IH]; intros q; [discriminate|].
  simpl. destruct (ret w <=? 0) eqn:Hr; unfold mbind, M_bind.
  - pose proof (sigtimedwaitErrorHandler_frame (errno w) q) as [Hs _].
    destruct (sigtimedwaitErrorHandler (errno w) q) as [[[]|e] q1];
      [|discriminate].
    intros H. destruct (IH q1 H) as (w' & first & Hin & Hpos & Hl).
    exists w', first. simpl in Hs. rewrite <- Hs.
    split; [by apply list_elem_of_further|done].
  - apply Z.leb_gt in Hr.
    destruct (mHandlers (self q) !! ret w) as [[first second]|] eqn:Hl.
    + rewrite (signalProcessing_found _ _ _ _ Hl). destruct second; simpl.
      * intros _. exists w, first. split; [apply list_elem_of_here|done].
      * intros H. destruct (IH _ H) as (w' & first' & Hin & Hpos & Hl').
        exists w', first'. split; [by apply list_elem_of_further|done].
    + by rewrite (signalProcessing_missing _ _ Hl).
Qed.

(** X14: [listen] returns only through a terminating entry: when it
    returns, [sigtimedwait] has delivered a signal whose entry in
    [mHandlers] has terminate = true. *)
Theorem listen_returns_only_on_terminate (unblockable : gset Z) (os_rc : Z)
    (script : list WaitResult) (p p' : Process) :
  listen unblockable os_rc script p = (Ok Returned, p') ->
  ∃ w first,
    w ∈ script ∧ 0 < ret w
    ∧ mHandlers (self p) !! ret w = Some (first, true).
Proof.
  rewrite listen_unfold.
  destruct (negb _); [discriminate|]. destruct (_ || _); [discriminate|].
  destruct (os_rc =? 0); [|discriminate].
  intros H. by apply listen_loop_returned in H.
Qed.

Lemma listen_returns_only_on_terminate_witness :
  ∃ w first,
    w ∈ [Linux.failed EAGAIN; Linux.delivered Linux.SIGTERM] ∧ 0 < ret w
    ∧ mHandlers (self Linux.example) !! ret w = Some (first, true).
Proof.
  apply (listen_returns_only_on_terminate Linux.unblockable 0
           [Linux.failed EAGAIN; Linux.delivered Linux.SIGTERM]
           Linux.example
           (listen Linux.unblockable 0
              [Linux.failed EAGAIN; Linux.delivered Linux.SIGTERM]
              Linux.example).2).
  vm_compute. reflexivity.
Defined.

(** X15: [listen] only reads the listener: whatever [sigtimedwait] reports
    and however [listen] ends, [mHandlers], [mSetHandlers], the timeout
    settings and [mIsInited] are afterwards what they were. *)
Theorem listen_leaves_listener_alone (unblockable : gset Z) (os_rc : Z)
    (script : list WaitResult) (p : Process) :
  self (listen unblockable os_rc script p).2 = self p.
Proof.
  rewrite listen_unfold.
  destruct (negb _); [reflexivity|]. destruct (_ || _); [reflexivity|].
  destruct (os_rc =? 0); [|reflexivity].
  by destruct (listen_loop_frame script
    (mkProcess (self p) (mSetHandlers (self p) ∖ unblockable) (calls p))).
Qed.



(** A run of deliveries of registered signals. *)
Lemma listen_loop_deliveries (ds : list WaitResult) (m : gmap Z HandlerPair)
    (q : Process) :
  mHandlers (self q) = m ->
  Forall (fun w => 0 < ret w ∧ is_Some (m !! ret w)) ds ->
  listen_loop ds q
  = (Ok (if terminates m ds then Returned else Blocked),
     mkProcess (self q) (sigmask q) (calls q ++ handled m ds)).
Proof.
  intros Hm Hds. revert q Hm.
  induction Hds as [|w ds [Hr [[first second] Hl]] _ IH]; intros q Hm.
  - destruct q as [l k cs]. simpl. by rewrite app_nil_r.
  - rewrite (delivery_dispatches w ds first second q Hr)
      by (by rewrite Hm).
    simpl. rewrite Hl. destruct second; [reflexivity|].
    rewrite (IH (called first q) Hm). simpl. by rewrite <- app_assoc.
Qed.

(** X17: when [listen] is waiting and [sigtimedwait] delivers registered
    signals one after the other, the handlers are called in the order of
    arrival, one call per delivery whose entry holds a callable, up to and
    including the first delivery whose entry has terminate = true; [listen]
    returns if there is such a delivery and is waiting again otherwise. *)
Theorem deliveries_dispatch_in_order (unblockable : gset Z) (os_rc : Z)
    (pre ds : list WaitResult) (p p1 : Process) :
  listen unblockable os_rc pre p = (Ok Blocked, p1) ->
  Forall (fun w => 0 < ret w ∧ is_Some (mHandlers (self p) !! ret w)) ds ->
  listen unblockable os_rc (pre ++ ds) p
  = (Ok (if terminates (mHandlers (self p)) ds then Returned else Blocked),
     mkProcess (self p1) (sigmask p1)
               (calls p1 ++ handled (mHandlers (self p)) ds)).
Proof.
  intros Hpre Hds.
  destruct (listen_app unblockable os_rc pre ds p p1 Hpre) as [-> Hs].
  apply listen_loop_deliveries; [by rewrite Hs|exact Hds].
Qed.

Lemma deliveries_dispatch_in_order_witness :
  let p := (setHandler Linux.signals Linux.SIGUSR1 (Some (UserFn 7)) false
              Linux.example).2 in
  let ds := [Linux.delivered Linux.SIGUSR1; Linux.delivered Linux.SIGUSR1;
             Linux.delivered Linux.SIGUSR1; Linux.delivered Linux.SIGTERM;
             Linux.delivered Linux.SIGUSR1] in
  let p1 := (listen Linux.unblockable 0 [] p).2 in
  listen Linux.unblockable 0 ([] ++ ds) p
  = (Ok (if terminates (mHandlers (self p)) ds then Returned else Blocked),
     mkProcess (self p1) (sigmask p1)
               (calls p1 ++ handled (mHandlers (self p)) ds)).
Proof.
  intros p ds p1.
  apply (deliveries_dispatch_in_order Linux.unblockable 0 [] ds p p1).
  - vm_compute. reflexivity.
  - repeat (apply List.Forall_cons;
            [split; [vm_compute; reflexivity|compute_done]|]).
    exact (List.Forall_nil _).
Defined.

(** ** Further properties: [setTimeoutHandler] and [setSigIgnore] *)

(** X18: [setTimeoutHandler] never throws and the last call wins: after two
    calls the state is the one the second call alone produces, [tv_sec] is
    the second timeout, the registered handlers are untouched, and a
    time-out calls the second handler. *)
Theorem setTimeoutHandler_last_wins (t1 t2 : Z) (h1 : Handler)
    (c2 : Callable) (p : Process) (w : WaitResult) (rest : list WaitResult) :
  ret w <= 0 -> errno w = EAGAIN ->
  let twice :=
    (setTimeoutHandler t1 h1;; setTimeoutHandler t2 (Some c2)) p in
  twice = setTimeoutHandler t2 (Some c2) p
  ∧ twice.1 = Ok tt
  ∧ tv_sec (mTimeoutSpec (self twice.2)) = t2
  ∧ mHandlers (self twice.2) = mHandlers (self p)
  ∧ mSetHandlers (self twice.2) = mSetHandlers (self p)
  ∧ listen_loop (w :: rest) twice.2
    = listen_loop rest (called (Some c2) twice.2).
Proof.
  intros Hr He twice.
  assert (Htwice : twice = setTimeoutHandler t2 (Some c2) p) by reflexivity.
  split; [exact Htwice|]. rewrite Htwice.
  repeat (split; [reflexivity|]).
  by apply timeout_calls_handler.
Qed.

Lemma setTimeoutHandler_last_wins_witness :
  let twice :=
    (setTimeoutHandler 5 None;; setTimeoutHandler 7 (Some (UserFn 4)))
      Linux.example in
  twice = setTimeoutHandler 7 (Some (UserFn 4)) Linux.example
  ∧ twice.1 = Ok tt
  ∧ tv_sec (mTimeoutSpec (self twice.2)) = 7
  ∧ mHandlers (self twice.2) = mHandlers (self Linux.example)
  ∧ mSetHandlers (self twice.2) = mSetHandlers (self Linux.example)
  ∧ listen_loop (Linux.failed EAGAIN :: [Linux.delivered Linux.SIGTERM])
      twice.2
    = listen_loop [Linux.delivered Linux.SIGTERM]
        (called (Some (UserFn 4)) twice.2).
Proof.
  apply (setTimeoutHandler_last_wins 5 7 None (UserFn 4) Linux.example
           (Linux.failed EAGAIN) [Linux.delivered Linux.SIGTERM]).
  - vm_compute. discriminate.
  - reflexivity.
Defined.

(** X19: after [setSigIgnore(s)] for a signal the platform accepts, a
    delivery of [s] has no effect at all: no handler is called, nothing is
    thrown, and the loop goes on with the next result of [sigtimedwait] in
    the same state. *)
Theorem ignored_signal_has_no_effect (signals : gset Z) (s : Z)
    (p : Process) (w : WaitResult) (rest : list WaitResult) :
  s ∈ signals -> 0 < s -> ret w = s ->
  listen_loop (w :: rest) (setSigIgnore signals s p).2
  = listen_loop rest (setSigIgnore signals s p).2.
Proof.
  intros Hv Hs <-. unfold setSigIgnore.
  rewrite (setHandler_valid signals (ret w) None false p Hv). simpl snd.
  rewrite (delivery_dispatches w rest None false);
    [|exact Hs|apply lookup_insert_eq].
  unfold called. simpl. by rewrite app_nil_r.
Qed.

Lemma ignored_signal_has_no_effect_witness :
  listen_loop (Linux.delivered Linux.SIGINT :: [Linux.delivered Linux.SIGTERM])
    (setSigIgnore Linux.signals Linux.SIGINT Linux.example).2
  = listen_loop [Linux.delivered Linux.SIGTERM]
      (setSigIgnore Linux.signals Linux.SIGINT Linux.example).2.
Proof.
  apply (ignored_signal_has_no_effect Linux.signals Linux.SIGINT
           Linux.example (Linux.delivered Linux.SIGINT)
           [Linux.delivered Linux.SIGTERM]).
  - compute_done.
  - reflexivity.
  - reflexivity.
Defined.
